(** * Pinhole_Intrinsic: the ideal pinhole camera of openMVG

    A shallow embedding of [src/openMVG/cameras/Camera_Pinhole.hpp].

    The class stores the calibration matrix [_K], its inverse [_Kinv] and,
    through its base [IntrinsicBase], the image size.  The arithmetic of
    the class is on C++ [double]s.  The embedding is written once, over an
    interface [Scalar] of the operations the code uses, and instantiated
    twice: at binary64 floating-point numbers (the code as it runs) and at
    the real numbers (the arithmetic the "to numerical tolerance" laws are
    about). *)

From Stdlib Require Import PrimFloat.
From Stdlib Require Import List String NArith Bool.
From Stdlib Require Import Reals Lra.
Import ListNotations.

(** ** The scalar interface *)

Class Scalar (F : Type) : Type := {
  s_zero : F;
  s_one  : F;
  s_add  : F -> F -> F;
  s_sub  : F -> F -> F;
  s_mul  : F -> F -> F;
  s_div  : F -> F -> F;
  s_sqrt : F -> F
}.

Declare Scope scalar_scope.
Delimit Scope scalar_scope with S.
Infix "+" := s_add : scalar_scope.
Infix "-" := s_sub : scalar_scope.
Infix "*" := s_mul : scalar_scope.
Infix "/" := s_div : scalar_scope.

(** C++ [double]: IEEE 754 binary64. *)
#[export] Instance Scalar_double : Scalar float := {
  s_zero := 0%float;
  s_one  := 1%float;
  s_add  := PrimFloat.add;
  s_sub  := PrimFloat.sub;
  s_mul  := PrimFloat.mul;
  s_div  := PrimFloat.div;
  s_sqrt := PrimFloat.sqrt
}.

(** Exact arithmetic. *)
#[export] Instance Scalar_real : Scalar R := {
  s_zero := 0%R;
  s_one  := 1%R;
  s_add  := Rplus;
  s_sub  := Rminus;
  s_mul  := Rmult;
  s_div  := Rdiv;
  s_sqrt := sqrt
}.

(** ** Fixed-size vectors and matrices (openMVG/numeric/numeric.h)

    [Vec2], [Vec3] and [Mat3] are the fixed-size types of the linear
    algebra library the class is written on.  The library is not part of
    this source file: its operations are written out here coefficient by
    coefficient, each product and sum in the order of the indices. *)

Module Eigen.
Section Numeric.
Context {F : Type} `{Scalar F}.
Local Open Scope scalar_scope.

Definition Vec2 : Type := (F * F)%type.
Definition Vec3 : Type := (F * F * F)%type.

(** A 3x3 matrix, one field per coefficient [(row, column)]. *)
Record Mat3 : Type := mat3 {
  m00 : F; m01 : F; m02 : F;
  m10 : F; m11 : F; m12 : F;
  m20 : F; m21 : F; m22 : F
}.

(** [M(i, j)], indices taken modulo 3. *)
Definition coeff (M : Mat3) (i j : nat) : F :=
  match Nat.modulo i 3, Nat.modulo j 3 with
  | 0, 0 => m00 M | 0, 1 => m01 M | 0, _ => m02 M
  | 1, 0 => m10 M | 1, 1 => m11 M | 1, _ => m12 M
  | _, 0 => m20 M | _, 1 => m21 M | _, _ => m22 M
  end.

Definition Identity : Mat3 :=
  mat3 s_one s_zero s_zero
       s_zero s_one s_zero
       s_zero s_zero s_one.

(** [a * p], [p + q], [p - q], [p / a] on 2-vectors, coefficient-wise. *)
Definition scale2 (a : F) (p : Vec2) : Vec2 := (a * fst p, a * snd p).
Definition add2 (p q : Vec2) : Vec2 := (fst p + fst q, snd p + snd q).
Definition sub2 (p q : Vec2) : Vec2 := (fst p - fst q, snd p - snd q).
Definition div2 (p : Vec2) (a : F) : Vec2 := (fst p / a, snd p / a).

(** [M * v]: each coefficient is the dot product of a row with [v]. *)
Definition mul_vec (M : Mat3) (v : Vec3) : Vec3 :=
  let '(x, y, z) := v in
  (m00 M * x + m01 M * y + m02 M * z,
   m10 M * x + m11 M * y + m12 M * z,
   m20 M * x + m21 M * y + m22 M * z).

(** [A * B]. *)
Definition mul (A B : Mat3) : Mat3 :=
  mat3 (m00 A * m00 B + m01 A * m10 B + m02 A * m20 B)
       (m00 A * m01 B + m01 A * m11 B + m02 A * m21 B)
       (m00 A * m02 B + m01 A * m12 B + m02 A * m22 B)
       (m10 A * m00 B + m11 A * m10 B + m12 A * m20 B)
       (m10 A * m01 B + m11 A * m11 B + m12 A * m21 B)
       (m10 A * m02 B + m11 A * m12 B + m12 A * m22 B)
       (m20 A * m00 B + m21 A * m10 B + m22 A * m20 B)
       (m20 A * m01 B + m21 A * m11 B + m22 A * m21 B)
       (m20 A * m02 B + m21 A * m12 B + m22 A * m22 B).

(** The cofactor of [M] at [(i, j)], by the cyclic 2x2 minor. *)
Definition cofactor (M : Mat3) (i j : nat) : F :=
  coeff M (i + 1) (j + 1) * coeff M (i + 2) (j + 2)
  - coeff M (i + 1) (j + 2) * coeff M (i + 2) (j + 1).

(** Modelled from the spec: the fixed 3x3 inverse of the matrix
    primitive ([Mat3::inverse]), which is not part of this source file.
    It is the closed form for size 3: the transposed cofactor matrix
    scaled by the reciprocal of the determinant, the determinant expanded
    along column 0.  Nothing tests for a singular matrix. *)
Definition inverse (M : Mat3) : Mat3 :=
  let c00 := cofactor M 0 0 in
  let c10 := cofactor M 1 0 in
  let c20 := cofactor M 2 0 in
  let det := c00 * m00 M + c10 * m10 M + c20 * m20 M in
  let invdet := s_one / det in
  mat3 (c00 * invdet) (c10 * invdet) (c20 * invdet)
       (cofactor M 0 1 * invdet) (cofactor M 1 1 * invdet)
       (cofactor M 2 1 * invdet)
       (cofactor M 0 2 * invdet) (cofactor M 1 2 * invdet)
       (cofactor M 2 2 * invdet).

(** [v(2)], the third coefficient of a 3-vector. *)
Definition z3 (v : Vec3) : F := snd v.

Definition squaredNorm (v : Vec3) : F :=
  let '(x, y, z) := v in x * x + y * y + z * z.

Definition norm (v : Vec3) : F := s_sqrt (squaredNorm v).

(** Modelled from the spec: the vector normalize of the matrix primitive
    ([Vec3::normalized]), which is not part of this source file: the
    vector divided by its norm. *)
Definition normalized (v : Vec3) : Vec3 :=
  let n := norm v in
  let '(x, y, z) := v in (x / n, y / n, z / n).

End Numeric.
Arguments Vec2 : clear implicits.
Arguments Vec3 : clear implicits.
Arguments Mat3 : clear implicits.
End Eigen.
Import Eigen.

(** ** The serialization archive *)

Module Archive.
Section Archive.
Context {F : Type}.

(** Modelled from the spec: the archive of the serialization framework,
    which is not part of this source file.  Only the shape of what is
    written is kept: an ordered sequence of named values, each an
    unsigned integer, a double or a vector of doubles.  Writing appends
    a named value; reading takes the next one, and fails when the
    archive is exhausted or the next value has another name or shape. *)
Inductive value : Type :=
| V_uint   (n : N)
| V_double (x : F)
| V_vector (xs : list F).

Definition t : Type := list (string * value).

Definition write (name : string) (v : value) (ar : t) : t :=
  ar ++ [(name, v)].

Definition read_uint (name : string) (ar : t) : option (N * t) :=
  match ar with
  | (n, V_uint x) :: rest => if String.eqb n name then Some (x, rest) else None
  | _ => None
  end.

Definition read_double (name : string) (ar : t) : option (F * t) :=
  match ar with
  | (n, V_double x) :: rest => if String.eqb n name then Some (x, rest) else None
  | _ => None
  end.

Definition read_vector (name : string) (ar : t) : option (list F * t) :=
  match ar with
  | (n, V_vector xs) :: rest => if String.eqb n name then Some (xs, rest) else None
  | _ => None
  end.

End Archive.
Arguments value : clear implicits.
Arguments t : clear implicits.
End Archive.

(** Sequencing of fallible steps. *)
Definition bind {A B : Type} (o : option A) (k : A -> option B) : option B :=
  match o with
  | Some a => k a
  | None => None
  end.

Notation "' p <- c1 ;; c2" := (bind c1 (fun p => c2))
  (at level 61, p pattern, c1 at next level, right associativity).

(** ** IntrinsicBase (openMVG/cameras/Camera_Intrinsics.hpp) *)

(** Modelled from the spec: the base class of every camera model, which is
    not part of this source file; it holds the image size as two
    [unsigned int] and persists them as [width] and [height].  The class
    stores and copies the two numbers and never computes with them, so
    they are kept as naturals. *)
Record IntrinsicBase : Type := {
  _w : N;
  _h : N
}.

Section Base.
Context {F : Type}.

(** Modelled from the spec: [IntrinsicBase::save] writes the shared
    fields, width then height. *)
Definition IntrinsicBase_save (b : IntrinsicBase) (ar : Archive.t F)
  : Archive.t F :=
  let ar := Archive.write "width" (Archive.V_uint (_w b)) ar in
  Archive.write "height" (Archive.V_uint (_h b)) ar.

(** Modelled from the spec: [IntrinsicBase::load] reads them back into
    the object. *)
Definition IntrinsicBase_load (b : IntrinsicBase) (ar : Archive.t F)
  : option (IntrinsicBase * Archive.t F) :=
  ' (w, ar) <- Archive.read_uint "width" ar ;;
  ' (h, ar) <- Archive.read_uint "height" ar ;;
  Some ({| _w := w; _h := h |}, ar).
End Base.

(** ** Pinhole_Intrinsic *)

Section Pinhole.
Context {F : Type} `{Scalar F}.
Local Open Scope scalar_scope.

(** The state of an object: the base part, [_K] and [_Kinv]. *)
Record Pinhole_Intrinsic : Type := {
  base  : IntrinsicBase;
  _K    : Mat3 F;
  _Kinv : Mat3 F
}.

Definition w (c : Pinhole_Intrinsic) : N := _w (base c).
Definition h (c : Pinhole_Intrinsic) : N := _h (base c).

(** The constructor:
    [_K << focal_length_pix, 0., ppx, 0., focal_length_pix, ppy, 0., 0., 1.;
     _Kinv = _K.inverse();] *)
Definition Pinhole_Intrinsic_ctor (w h : N) (focal_length_pix ppx ppy : F)
  : Pinhole_Intrinsic :=
  let K := mat3 focal_length_pix s_zero ppx
                s_zero focal_length_pix ppy
                s_zero s_zero s_one in
  {| base := {| _w := w; _h := h |}; _K := K; _Kinv := inverse K |}.

(** The default arguments of the constructor are all zero. *)
Definition Pinhole_Intrinsic_default : Pinhole_Intrinsic :=
  Pinhole_Intrinsic_ctor 0 0 s_zero s_zero s_zero.

Definition K (c : Pinhole_Intrinsic) : Mat3 F := _K c.
Definition Kinv (c : Pinhole_Intrinsic) : Mat3 F := _Kinv c.

Definition focal (c : Pinhole_Intrinsic) : F := coeff (_K c) 0 0.

Definition principal_point (c : Pinhole_Intrinsic) : Vec2 F :=
  (coeff (_K c) 0 2, coeff (_K c) 1 2).

(** [operator()]: the bearing vector of an image point. *)
Definition operator_call (c : Pinhole_Intrinsic) (p : Vec2 F) : Vec3 F :=
  let p3 : Vec3 F := (fst p, snd p, s_one) in
  normalized (mul_vec (_Kinv c) p3).

Definition cam2ima (c : Pinhole_Intrinsic) (p : Vec2 F) : Vec2 F :=
  add2 (scale2 (focal c) p) (principal_point c).

Definition ima2cam (c : Pinhole_Intrinsic) (p : Vec2 F) : Vec2 F :=
  div2 (sub2 p (principal_point c)) (focal c).

Definition have_disto (c : Pinhole_Intrinsic) : bool := false.
Definition add_disto (c : Pinhole_Intrinsic) (p : Vec2 F) : Vec2 F := p.
Definition remove_disto (c : Pinhole_Intrinsic) (p : Vec2 F) : Vec2 F := p.

Definition imagePlane_toCameraPlaneError (c : Pinhole_Intrinsic) (value : F)
  : F := value / focal c.

Definition getParams (c : Pinhole_Intrinsic) : list F :=
  [coeff (_K c) 0 0; coeff (_K c) 0 2; coeff (_K c) 1 2].

(** [params[i]]; zero stands for what lies past the end of the vector. *)
Definition at_ (params : list F) (i : nat) : F := nth i params s_zero.

(** The object is assigned to in place: the function returns its result
    together with the object after the call. *)
Definition updateFromParams (c : Pinhole_Intrinsic) (params : list F)
  : bool * Pinhole_Intrinsic :=
  if Nat.eqb (List.length params) 3
  then (true, Pinhole_Intrinsic_ctor (w c) (h c)
                (at_ params 0) (at_ params 1) (at_ params 2))
  else (false, c).

Definition get_ud_pixel (c : Pinhole_Intrinsic) (p : Vec2 F) : Vec2 F := p.
Definition get_d_pixel (c : Pinhole_Intrinsic) (p : Vec2 F) : Vec2 F := p.

Definition save (c : Pinhole_Intrinsic) (ar : Archive.t F) : Archive.t F :=
  let ar := IntrinsicBase_save (base c) ar in
  let ar := Archive.write "focal_length"
              (Archive.V_double (coeff (_K c) 0 0)) ar in
  let pp := [coeff (_K c) 0 2; coeff (_K c) 1 2] in
  Archive.write "principal_point" (Archive.V_vector pp) ar.

(** [load] replaces the object.  The vector for the principal point is
    created with two zero values, read into, and indexed at 0 and 1
    without a test of its size.  When fewer than two values were read the
    index is past the end of the vector: [at_] gives zero there, the value
    the two-element vector held before it was read into. *)
Definition load (c : Pinhole_Intrinsic) (ar : Archive.t F)
  : option (Pinhole_Intrinsic * Archive.t F) :=
  ' (b, ar) <- IntrinsicBase_load (base c) ar ;;
  ' (focal_length, ar) <- Archive.read_double "focal_length" ar ;;
  ' (pp, ar) <- Archive.read_vector "principal_point" ar ;;
  Some (Pinhole_Intrinsic_ctor (_w b) (_h b)
          focal_length (at_ pp 0) (at_ pp 1), ar).

(** The objects a program can hold: made by the constructor, then
    changed only by [updateFromParams] and [load]. *)
Inductive reachable : Pinhole_Intrinsic -> Prop :=
| reach_ctor : forall w h f ppx ppy,
    reachable (Pinhole_Intrinsic_ctor w h f ppx ppy)
| reach_update : forall c params,
    reachable c -> reachable (snd (updateFromParams c params))
| reach_load : forall c ar c' ar',
    reachable c -> load c ar = Some (c', ar') -> reachable c'.

End Pinhole.
Arguments Pinhole_Intrinsic F : clear implicits.

(** ** The projective equivalent of a camera and a pose *)

Section Projective.
Context {F : Type} `{Scalar F}.
Local Open Scope scalar_scope.

(** [u + v] on 3-vectors, coefficient-wise. *)
Definition add3 (u v : Vec3 F) : Vec3 F :=
  let '(a, b, c) := u in
  let '(x, y, z) := v in (a + x, b + y, c + z).

(** [v(0)] and [v(1)], the first two coefficients of a 3-vector. *)
Definition x3 (v : Vec3 F) : F := fst (fst v).
Definition y3 (v : Vec3 F) : F := snd (fst v).

(** A 3x4 matrix, as its left 3x3 block and its last column. *)
Definition Mat34 : Type := (Mat3 F * Vec3 F)%type.

(** [P * (X, 1)]: a 3x4 matrix applied to a 3D point in homogeneous
    coordinates. *)
Definition mul34_point (P : Mat34) (X : Vec3 F) : Vec3 F :=
  add3 (mul_vec (fst P) X) (snd P).

(** Modelled from the spec: the extrinsic pose (openMVG/geometry/pose3.hpp),
    which is not part of this source file; the class only calls its
    [rotation()] and [translation()]. *)
Record Pose3 : Type := {
  rotation    : Mat3 F;
  translation : Vec3 F
}.

(** Modelled from the spec: [P_From_KRt], which is not part of this source
    file, assembles [K * [R|t]]: the left block is [K * R] and the last
    column is [K * t]. *)
Definition P_From_KRt (K R : Mat3 F) (t : Vec3 F) : Mat34 :=
  (mul K R, mul_vec K t).

Definition get_projective_equivalent (c : Pinhole_Intrinsic F) (pose : Pose3)
  : Mat34 :=
  P_From_KRt (K c) (rotation pose) (translation pose).

End Projective.
Arguments Mat34 F : clear implicits.
Arguments Pose3 F : clear implicits.

(** ** Laws that hold for every arithmetic *)

Section Laws.
Context {F : Type} `{Scalar F}.

(** An object built by the constructor is determined by what its
    accessors return. *)
Lemma ctor_accessors : forall w0 h0 f ppx ppy,
  let c := Pinhole_Intrinsic_ctor w0 h0 f ppx ppy in
  w c = w0 /\ h c = h0 /\ focal c = f /\ principal_point c = (ppx, ppy).
Proof. intros; repeat split. Qed.

Lemma updateFromParams_3 : forall (c : Pinhole_Intrinsic F) a b d,
  updateFromParams c [a; b; d]
  = (true, Pinhole_Intrinsic_ctor (w c) (h c) a b d).
Proof. reflexivity. Qed.

Lemma updateFromParams_other : forall (c : Pinhole_Intrinsic F) v,
  List.length v <> 3 -> updateFromParams c v = (false, c).
Proof.
  intros c v Hlen. unfold updateFromParams.
  destruct (Nat.eqb (List.length v) 3) eqn:E; [|reflexivity].
  apply Nat.eqb_eq in E. contradiction.
Qed.

Lemma length_3_inv : forall (v : list F),
  List.length v = 3 -> v = [at_ v 0; at_ v 1; at_ v 2].
Proof.
  intros [|a [|b [|d [|e v]]]] Hlen; try discriminate. reflexivity.
Qed.

(** Every reachable object is the constructor's image of its own
    accessors: [_K] has the structured pattern and [_Kinv] is what
    [inverse] returned on it. *)
Lemma reachable_ctor : forall c : Pinhole_Intrinsic F,
  reachable c ->
  c = Pinhole_Intrinsic_ctor (w c) (h c) (focal c)
        (fst (principal_point c)) (snd (principal_point c)).
Proof.
  induction 1 as [w0 h0 f ppx ppy | c params Hc IH | c ar c' ar' Hc IH Hload].
  - reflexivity.
  - unfold updateFromParams.
    destruct (Nat.eqb (List.length params) 3); [reflexivity | exact IH].
  - unfold load, bind in Hload.
    destruct (IntrinsicBase_load (base c) ar) as [[b ar1]|]; [|discriminate].
    destruct (Archive.read_double "focal_length" ar1) as [[fl ar2]|];
      [|discriminate].
    destruct (Archive.read_vector "principal_point" ar2) as [[pp ar3]|];
      [|discriminate].
    injection Hload as <- _. reflexivity.
Qed.

Lemma save_app : forall (c : Pinhole_Intrinsic F) ar,
  save c ar = ar ++ save c [].
Proof.
  intros. unfold save, IntrinsicBase_save, Archive.write. simpl.
  now rewrite <- !app_assoc.
Qed.

(** Reading back what [save] wrote rebuilds the object through the
    constructor, from the written width, height, focal length and
    principal point. *)
Lemma load_save : forall (c c0 : Pinhole_Intrinsic F) rest,
  load c0 (save c [] ++ rest)
  = Some (Pinhole_Intrinsic_ctor (w c) (h c) (focal c)
            (fst (principal_point c)) (snd (principal_point c)), rest).
Proof. reflexivity. Qed.

End Laws.

Section Claims.
Context {F : Type} `{Scalar F}.

(** C1. [updateFromParams] looks at the length of the vector only: with
    exactly three values it returns true and the object becomes the one
    the constructor builds from the current width and height and
    [v[0]], [v[1]], [v[2]]; with any other length it returns false and
    the object, hence its K, Kinv, width and height, is as before. *)
Theorem updateFromParams_checks_length :
  forall (c : Pinhole_Intrinsic F) (v : list F),
    (List.length v = 3 ->
       updateFromParams c v
       = (true, Pinhole_Intrinsic_ctor (w c) (h c)
                  (at_ v 0) (at_ v 1) (at_ v 2)))
    /\ (List.length v <> 3 ->
       fst (updateFromParams c v) = false
       /\ snd (updateFromParams c v) = c
       /\ K (snd (updateFromParams c v)) = K c
       /\ Kinv (snd (updateFromParams c v)) = Kinv c
       /\ w (snd (updateFromParams c v)) = w c
       /\ h (snd (updateFromParams c v)) = h c).
Proof.
  intros c v. split; intro Hlen.
  - rewrite (length_3_inv v Hlen) at 1. apply updateFromParams_3.
  - rewrite (updateFromParams_other c v Hlen). simpl. repeat split.
Qed.

(** C4. [getParams] returns exactly three values, in the order focal,
    principal point x, principal point y, that is
    [K(0,0); K(0,2); K(1,2)]. *)
Theorem getParams_order : forall c : Pinhole_Intrinsic F,
  getParams c = [coeff (K c) 0 0; coeff (K c) 0 2; coeff (K c) 1 2]
  /\ getParams c
     = [focal c; fst (principal_point c); snd (principal_point c)]
  /\ List.length (getParams c) = 3
  /\ forall w0 h0 f ppx ppy,
       getParams (Pinhole_Intrinsic_ctor w0 h0 f ppx ppy) = [f; ppx; ppy].
Proof. intros c. repeat split. Qed.

(** C5. On every object a program can hold, [updateFromParams] applied
    to the result of [getParams] returns true and leaves the very same
    object: same K, Kinv, width and height. *)
Theorem getParams_updateFromParams_roundtrip :
  forall c : Pinhole_Intrinsic F,
    reachable c ->
    updateFromParams c (getParams c) = (true, c)
    /\ K (snd (updateFromParams c (getParams c))) = K c
    /\ Kinv (snd (updateFromParams c (getParams c))) = Kinv c
    /\ w (snd (updateFromParams c (getParams c))) = w c
    /\ h (snd (updateFromParams c (getParams c))) = h c.
Proof.
  intros c Hc.
  assert (E : updateFromParams c (getParams c) = (true, c)).
  { unfold getParams. rewrite updateFromParams_3.
    f_equal. symmetry. exact (reachable_ctor c Hc). }
  rewrite E. repeat split.
Qed.

(** C8. The ideal pinhole has no distortion: [have_disto] is false and
    the four distortion hooks return their argument. *)
Theorem disto_hooks_identity : forall (c : Pinhole_Intrinsic F) (p : Vec2 F),
  have_disto c = false
  /\ add_disto c p = p
  /\ remove_disto c p = p
  /\ get_d_pixel c p = p
  /\ get_ud_pixel c p = p.
Proof. intros; repeat split. Qed.

End Claims.

(** ** Laws stated at both arithmetics *)

(** C6. [save] writes width, height, [focal_length] and a two-element
    [principal_point], in that order, and [load] on what was written gives
    back the saved object: same K, Kinv, width and height.  On binary64,
    the camera (1920, 1080, 1000, 960, 540) is reloaded with focal 1000,
    principal point (960, 540), width 1920 and height 1080. *)
Theorem save_load_roundtrip :
  (forall (F : Type) (S : Scalar F) (c c0 : Pinhole_Intrinsic F)
          (rest : Archive.t F),
      save c []
      = [("width"%string, Archive.V_uint (w c));
         ("height"%string, Archive.V_uint (h c));
         ("focal_length"%string, Archive.V_double (focal c));
         ("principal_point"%string,
          Archive.V_vector [fst (principal_point c);
                            snd (principal_point c)])]
      /\ (reachable c -> load c0 (save c [] ++ rest) = Some (c, rest)))
  /\ (forall c0 : Pinhole_Intrinsic float,
      let c := Pinhole_Intrinsic_ctor 1920 1080 1000%float 960%float 540%float in
      exists c',
        load c0 (save c []) = Some (c', [])
        /\ focal c' = 1000%float
        /\ principal_point c' = (960, 540)%float
        /\ w c' = 1920%N /\ h c' = 1080%N
        /\ K c' = K c /\ Kinv c' = Kinv c).
Proof.
  split.
  - intros F S c c0 rest. split; [reflexivity|].
    intro Hc. rewrite load_save. now rewrite <- (reachable_ctor c Hc).
  - intros c0 c. exists c. repeat split.
Qed.

(** C9. [updateFromParams] validates the length and nothing else: any
    three values are installed and the call returns true.  A zero focal is
    accepted, after which [ima2cam] divides by zero (shown on binary64);
    a negative focal is accepted, after which the camera plane is mirrored
    (shown over the reals). *)
Theorem updateFromParams_no_value_check :
  (forall (F : Type) (S : Scalar F) (c : Pinhole_Intrinsic F) (a b d : F),
      fst (updateFromParams c [a; b; d]) = true
      /\ snd (updateFromParams c [a; b; d])
         = Pinhole_Intrinsic_ctor (w c) (h c) a b d
      /\ focal (snd (updateFromParams c [a; b; d])) = a
      /\ principal_point (snd (updateFromParams c [a; b; d])) = (b, d))
  /\ (let c := Pinhole_Intrinsic_ctor 1920 1080 1000%float 960%float 540%float in
      let r := updateFromParams c [0; 960; 540]%float in
      fst r = true
      /\ focal (snd r) = 0%float
      /\ ima2cam (snd r) (961, 540)%float = (infinity, nan))
  /\ (forall (c : Pinhole_Intrinsic R) (f cx cy px py : R),
      (f < 0)%R -> (cx < px)%R ->
      let r := updateFromParams c [f; cx; cy] in
      fst r = true
      /\ focal (snd r) = f
      /\ (fst (ima2cam (snd r) (px, py)) < 0)%R).
Proof.
  split; [|split].
  - intros. repeat split.
  - repeat split.
  - intros c f cx cy px py Hf Hp r. repeat split.
    subst r. cbn.
    replace ((px - cx) / f)%R with (- ((px - cx) * / (- f)))%R
      by (field; lra).
    assert (0 < / (- f))%R by (apply Rinv_0_lt_compat; lra).
    assert (0 < (px - cx) * / (- f))%R by (apply Rmult_lt_0_compat; lra).
    lra.
Qed.

(** ** Laws of the exact arithmetic *)

Section Exact.
Local Open Scope R_scope.

(** The inverse of a structured calibration matrix with a nonzero focal. *)
Lemma inverse_K : forall f ppx ppy : R,
  f <> 0 ->
  inverse (mat3 f 0 ppx 0 f ppy 0 0 1)
  = mat3 (/ f) 0 (- ppx / f) 0 (/ f) (- ppy / f) 0 0 1.
Proof.
  intros f ppx ppy Hf. unfold inverse, cofactor, coeff. cbn.
  f_equal; field; exact Hf.
Qed.

Lemma mul_inverse_K : forall f ppx ppy : R,
  f <> 0 ->
  let M := mat3 f 0 ppx 0 f ppy 0 0 1 in
  mul M (inverse M) = Identity /\ mul (inverse M) M = Identity.
Proof.
  intros f ppx ppy Hf M. unfold M. rewrite (inverse_K f ppx ppy Hf).
  unfold mul, Identity. cbn. split; f_equal; field; exact Hf.
Qed.

(** A structured calibration matrix with a zero focal is singular: what
    [inverse] returns on it is no inverse. *)
Lemma mul_inverse_K_singular : forall ppx ppy : R,
  let M := mat3 0 0 ppx 0 0 ppy 0 0 1 in
  mul M (inverse M) <> Identity.
Proof.
  intros ppx ppy M E. apply (f_equal m00) in E. cbn in E.
  ring_simplify in E. lra.
Qed.


(** What [_Kinv] does to a lifted pixel, on a constructed object. *)
Lemma Kinv_mul_vec : forall w0 h0 f ppx ppy px py,
  f <> 0 ->
  mul_vec (Kinv (Pinhole_Intrinsic_ctor w0 h0 f ppx ppy)) (px, py, 1)
  = ((px - ppx) / f, (py - ppy) / f, 1).
Proof.
  intros w0 h0 f ppx ppy px py Hf. unfold Kinv, Pinhole_Intrinsic_ctor.
  cbn [_Kinv]. change s_zero with 0. change s_one with 1.
  rewrite (inverse_K f ppx ppy Hf). cbn.
  f_equal; [f_equal|]; field; exact Hf.
Qed.

Lemma squaredNorm_lifted : forall a b : R, 0 < squaredNorm (a, b, 1).
Proof. intros a b. cbn. nra. Qed.

End Exact.

Section ExactClaims.
Local Open Scope R_scope.

(** C2, as amended.  On every object a program can hold, in every
    arithmetic, [_Kinv] is the value [inverse] returns on the stored [_K]:
    it is never stale.  In exact real arithmetic this value is the inverse
    of K exactly when the focal [K(0,0)] is not zero: then [K * Kinv] and
    [Kinv * K] are the identity matrix, and with a zero focal [K * Kinv]
    is not the identity. *)
Theorem Kinv_is_inverse_of_K :
  (forall (F : Type) (S : Scalar F) (c : Pinhole_Intrinsic F),
      reachable c -> Kinv c = inverse (K c))
  /\ (forall c : Pinhole_Intrinsic R,
      reachable c ->
      (focal c <> 0 ->
       mul (K c) (Kinv c) = Identity /\ mul (Kinv c) (K c) = Identity)
      /\ (focal c = 0 -> mul (K c) (Kinv c) <> Identity)).
Proof.
  split.
  - intros F S c Hc. rewrite (reachable_ctor c Hc). reflexivity.
  - intros c Hc. pose proof (reachable_ctor c Hc) as E0. split.
    + intro Hf. rewrite E0.
      exact (mul_inverse_K (focal c) (fst (principal_point c))
               (snd (principal_point c)) Hf).
    + intros Hf E. rewrite E0, Hf in E.
      exact (mul_inverse_K_singular (fst (principal_point c))
               (snd (principal_point c)) E).
Qed.

(** C2, as stated, fails.  The default-constructed object has focal 0:
    over the reals the first coefficient of [K * Kinv] is 0, not 1; on
    binary64 every coefficient of [_Kinv] is NaN.  [updateFromParams]
    installs a zero focal in the same way.  On binary64 a nonzero focal
    does not save the identity either: with focal [2^-600] the determinant
    underflows to 0 and [K * Kinv] is NaN. *)
Lemma Kinv_not_inverse_at_zero_focal :
  (let c := Pinhole_Intrinsic_default (F := R) in
   reachable c
   /\ m00 (mul (K c) (Kinv c)) = 0
   /\ mul (K c) (Kinv c) <> Identity)
  /\ (let c := Pinhole_Intrinsic_default (F := float) in
      reachable c
      /\ PrimFloat.is_nan (m00 (mul (K c) (Kinv c))) = true
      /\ mul (K c) (Kinv c) <> Identity)
  /\ (let c := Pinhole_Intrinsic_ctor 640 480
                 0x1p-600%float 320%float 240%float in
      reachable c
      /\ PrimFloat.eqb (focal c) 0%float = false
      /\ PrimFloat.is_nan (m00 (mul (K c) (Kinv c))) = true
      /\ mul (K c) (Kinv c) <> Identity)
  /\ ~ (forall c : Pinhole_Intrinsic R,
          reachable c -> mul (K c) (Kinv c) = Identity).
Proof.
  assert (E0 : m00 (mul (K (Pinhole_Intrinsic_default (F := R)))
                        (Kinv Pinhole_Intrinsic_default)) = 0)
    by (cbn; lra).
  assert (N0 : mul (K (Pinhole_Intrinsic_default (F := R)))
                   (Kinv Pinhole_Intrinsic_default) <> Identity).
  { intro E. apply (f_equal m00) in E. rewrite E0 in E. cbn in E. lra. }
  split; [|split; [|split]].
  - intro c. split; [apply reach_ctor|]. split; assumption.
  - intro c. split; [apply reach_ctor|]. split; [reflexivity|].
    intro E. apply (f_equal (fun M => PrimFloat.is_nan (m00 M))) in E.
    vm_compute in E. discriminate E.
  - intro c. split; [apply reach_ctor|]. split; [reflexivity|].
    split; [reflexivity|].
    intro E. apply (f_equal (fun M => PrimFloat.is_nan (m00 M))) in E.
    vm_compute in E. discriminate E.
  - intro A. apply N0, A, reach_ctor.
Qed.

(** C3, as amended.  In exact real arithmetic, with a nonzero focal,
    [cam2ima] and [ima2cam] are inverse of each other at every point,
    where [cam2ima p] is [focal * p + principal_point] and [ima2cam p] is
    [(p - principal_point) / focal]. *)
Theorem cam2ima_ima2cam_inverse :
  forall (c : Pinhole_Intrinsic R) (p : Vec2 R),
    focal c <> 0 ->
    cam2ima c p = add2 (scale2 (focal c) p) (principal_point c)
    /\ ima2cam c p = div2 (sub2 p (principal_point c)) (focal c)
    /\ cam2ima c (ima2cam c p) = p
    /\ ima2cam c (cam2ima c p) = p.
Proof.
  intros c [px py] Hf. split; [reflexivity|]. split; [reflexivity|].
  unfold cam2ima, ima2cam, add2, scale2, div2, sub2.
  set (f := focal c) in *. destruct (principal_point c) as [cx cy].
  cbn. split; f_equal; field; exact Hf.
Qed.



End ExactClaims.

(** ** Where binary64 departs from the exact arithmetic *)

Section Binary64.
Local Open Scope float_scope.

(** C3, as stated, fails on binary64.  With focal [2^1023], which is not
    zero, [focal * p] overflows at p = (10, -10): [ima2cam (cam2ima p)] is
    (infinity, -infinity), at no finite distance from p. *)
Lemma cam2ima_ima2cam_overflow :
  let c := Pinhole_Intrinsic_ctor 1920 1080 0x1p1023 960 540 in
  let p := (10, -10) in
  PrimFloat.eqb (focal c) 0 = false
  /\ ima2cam c (cam2ima c p) = (infinity, neg_infinity)
  /\ ima2cam c (cam2ima c p) <> p.
Proof.
  intros c p. split; [reflexivity|]. split; [reflexivity|].
  intro E. apply (f_equal (fun q => PrimFloat.is_infinity (fst q))) in E.
  vm_compute in E. discriminate E.
Qed.



End Binary64.

(** ** Further laws that hold for every arithmetic *)

Section MoreLaws.
Context {F : Type} `{Scalar F}.

(** X1. Every object a program can hold has a structured [_K]: one focal
    on the diagonal, no skew, last row (0, 0, 1); and its [_Kinv] is
    [inverse] of that very matrix. *)
Theorem K_structured : forall c : Pinhole_Intrinsic F,
  reachable c ->
  K c = mat3 (focal c) s_zero (fst (principal_point c))
             s_zero (focal c) (snd (principal_point c))
             s_zero s_zero s_one
  /\ Kinv c = inverse (K c).
Proof.
  intros c Hc. pose proof (reachable_ctor c Hc) as E.
  split; rewrite E; reflexivity.
Qed.

(** X2. [updateFromParams] never changes the image size, whatever the
    vector and whether it succeeds or not; so no sequence of updates
    does. *)
Theorem updateFromParams_keeps_size :
  (forall (c : Pinhole_Intrinsic F) (v : list F),
      w (snd (updateFromParams c v)) = w c
      /\ h (snd (updateFromParams c v)) = h c)
  /\ (forall (vs : list (list F)) (c : Pinhole_Intrinsic F),
      let c' := fold_left (fun c v => snd (updateFromParams c v)) vs c in
      w c' = w c /\ h c' = h c).
Proof.
  assert (Step : forall (c : Pinhole_Intrinsic F) (v : list F),
             w (snd (updateFromParams c v)) = w c
             /\ h (snd (updateFromParams c v)) = h c).
  { intros c v. unfold updateFromParams.
    destruct (Nat.eqb (List.length v) 3); split; reflexivity. }
  split; [exact Step|].
  induction vs as [|v vs IH]; intros c; cbn.
  - split; reflexivity.
  - destruct (IH (snd (updateFromParams c v))) as [Ew Eh].
    destruct (Step c v) as [Sw Sh].
    split; [now rewrite Ew | now rewrite Eh].
Qed.

(** X3. After a successful [updateFromParams], [getParams] returns the
    vector that was given. *)
Theorem updateFromParams_getParams :
  forall (c : Pinhole_Intrinsic F) (v : list F),
    List.length v = 3 ->
    getParams (snd (updateFromParams c v)) = v.
Proof.
  intros c v Hlen. rewrite (length_3_inv v Hlen) at 2.
  rewrite (length_3_inv v Hlen) at 1. reflexivity.
Qed.

(** X4. A successful [updateFromParams] erases every earlier one: the
    object it leaves depends on the last vector and on the image size
    only. *)
Theorem updateFromParams_last_wins :
  forall (c : Pinhole_Intrinsic F) (v1 v2 : list F),
    List.length v2 = 3 ->
    updateFromParams (snd (updateFromParams c v1)) v2
    = updateFromParams c v2.
Proof.
  intros c v1 v2 Hlen. rewrite (length_3_inv v2 Hlen).
  rewrite !updateFromParams_3. unfold updateFromParams.
  destruct (Nat.eqb (List.length v1) 3); reflexivity.
Qed.

(** X5. [load] replaces the whole object.  Its result does not depend on
    the object loaded into; what it leaves is the constructor's image of
    its own width, height, focal and principal point, also when the
    object loaded into was not, and four entries of the archive are
    consumed.  On an archive that starts with [width], [height],
    [focal_length] and a [principal_point] of two values or more, the
    object is built from the first two values of the vector, whatever
    follows them. *)
Theorem load_replaces_object :
  forall (c0 : Pinhole_Intrinsic F) (ar : Archive.t F),
    (forall c1 : Pinhole_Intrinsic F, load c1 ar = load c0 ar)
    /\ (forall (c' : Pinhole_Intrinsic F) (rest : Archive.t F),
        load c0 ar = Some (c', rest) ->
        c' = Pinhole_Intrinsic_ctor (w c') (h c') (focal c')
               (fst (principal_point c')) (snd (principal_point c'))
        /\ exists read, ar = read ++ rest /\ List.length read = 4)
    /\ (forall (w0 h0 : N) (f a b : F) (more : list F) (rest : Archive.t F),
        ar = ("width"%string, Archive.V_uint w0)
             :: ("height"%string, Archive.V_uint h0)
             :: ("focal_length"%string, Archive.V_double f)
             :: ("principal_point"%string,
                 Archive.V_vector (a :: b :: more))
             :: rest ->
        load c0 ar = Some (Pinhole_Intrinsic_ctor w0 h0 f a b, rest)).
Proof.
  intros c0 ar. split; [reflexivity|]. split.
  - intros c' rest. unfold load, IntrinsicBase_load, bind.
    destruct ar as [|[n1 [w0| |]] ar]; cbn; try discriminate.
    destruct (String.eqb n1 "width"); [|discriminate].
    destruct ar as [|[n2 [h0| |]] ar]; cbn; try discriminate.
    destruct (String.eqb n2 "height"); [|discriminate].
    destruct ar as [|[n3 [|f|]] ar]; cbn; try discriminate.
    destruct (String.eqb n3 "focal_length"); [|discriminate].
    destruct ar as [|[n4 [| |pp]] ar]; cbn; try discriminate.
    destruct (String.eqb n4 "principal_point"); [|discriminate].
    intro E. injection E as <- <-. split; [reflexivity|].
    eexists [_; _; _; _]. split; reflexivity.
  - intros w0 h0 f a b more rest ->. reflexivity.
Qed.

(** X6. Cameras saved one after the other into one archive are loaded
    back one after the other, each [load] leaving the rest of the archive
    to the next. *)
Theorem save_load_sequence :
  forall (c1 c2 a b : Pinhole_Intrinsic F),
    reachable c1 -> reachable c2 ->
    (' (a', ar) <- load a (save c2 (save c1 [])) ;;
     ' (b', ar) <- load b ar ;;
     Some (a', b', ar))
    = Some (c1, c2, []).
Proof.
  intros c1 c2 a b H1 H2. rewrite (save_app c2 (save c1 [])).
  rewrite load_save. cbn [bind].
  rewrite <- (reachable_ctor c1 H1).
  rewrite <- (app_nil_r (save c2 [])). rewrite load_save. cbn [bind].
  now rewrite <- (reachable_ctor c2 H2).
Qed.

(** X7. Saving and loading an object, and feeding its parameters back to
    it, rebuild the same object: both go through the constructor, also on
    an object that is not the constructor's image. *)
Theorem load_save_is_updateFromParams :
  forall (c c0 : Pinhole_Intrinsic F) (rest : Archive.t F),
    load c0 (save c [] ++ rest)
    = Some (snd (updateFromParams c (getParams c)), rest).
Proof. intros c c0 rest. rewrite load_save. reflexivity. Qed.

(** X14. Among the objects a program can hold, the image size and the
    parameter vector determine the object: two objects with the same
    width, height and [getParams] are the same, [_Kinv] included. *)
Theorem getParams_determines :
  forall c1 c2 : Pinhole_Intrinsic F,
    reachable c1 -> reachable c2 ->
    w c1 = w c2 -> h c1 = h c2 -> getParams c1 = getParams c2 ->
    c1 = c2.
Proof.
  intros c1 c2 H1 H2 Ew Eh Ep.
  rewrite (reachable_ctor c1 H1), (reachable_ctor c2 H2).
  unfold getParams in Ep. injection Ep as Ef Ex Ey.
  unfold focal, principal_point. cbn [fst snd].
  now rewrite Ew, Eh, Ef, Ex, Ey.
Qed.

End MoreLaws.

(** ** Further laws of the exact arithmetic *)

Section MoreExact.
Local Open Scope R_scope.

Lemma vec2_eq : forall a b a' b' : R,
  a = a' -> b = b' -> (a, b) = (a', b').
Proof. intros; subst; reflexivity. Qed.

Lemma vec3_eq : forall a b c a' b' c' : R,
  a = a' -> b = b' -> c = c' -> (a, b, c) = (a', b', c').
Proof. intros; subst; reflexivity. Qed.

(** [_K] on a homogeneous vector, on a constructed object. *)
Lemma K_mul_vec : forall w0 h0 f ppx ppy x y z,
  mul_vec (K (Pinhole_Intrinsic_ctor w0 h0 f ppx ppy)) (x, y, z)
  = (f * x + ppx * z, f * y + ppy * z, z).
Proof.
  intros. cbn. apply vec3_eq; ring.
Qed.

(** X8. [cam2ima] is the calibration matrix at work: [K * (x, y, 1)] is
    [cam2ima (x, y)] with a third coefficient 1. *)
Theorem cam2ima_is_K :
  forall (c : Pinhole_Intrinsic R) (p : Vec2 R),
    reachable c ->
    mul_vec (K c) (fst p, snd p, 1)
    = (fst (cam2ima c p), snd (cam2ima c p), 1).
Proof.
  intros c [x y] Hc. rewrite (reachable_ctor c Hc).
  rewrite K_mul_vec. cbn. apply vec3_eq; ring.
Qed.

(** X9. With a nonzero focal, [Kinv * (px, py, 1)] is [ima2cam (px, py)]
    with a third coefficient 1, so the bearing vector is the camera plane
    point of the pixel, lifted and normalized. *)
Theorem bearing_is_ima2cam :
  forall (c : Pinhole_Intrinsic R) (p : Vec2 R),
    reachable c -> focal c <> 0 ->
    mul_vec (Kinv c) (fst p, snd p, 1)
    = (fst (ima2cam c p), snd (ima2cam c p), 1)
    /\ operator_call c p
       = normalized (fst (ima2cam c p), snd (ima2cam c p), 1).
Proof.
  intros c [px py] Hc Hf.
  assert (E : mul_vec (Kinv c) (px, py, 1)
              = (fst (ima2cam c (px, py)), snd (ima2cam c (px, py)), 1)).
  { rewrite (reachable_ctor c Hc). rewrite Kinv_mul_vec by exact Hf.
    reflexivity. }
  split; [exact E|].
  unfold operator_call. change (_Kinv c) with (Kinv c). cbn [fst snd].
  change s_one with 1. now rewrite E.
Qed.

(** A lifted vector, normalized: every coefficient is divided by one
    positive number. *)
Lemma normalized_lifted : forall a b : R,
  exists n : R, 0 < n /\ normalized (a, b, 1) = (a / n, b / n, 1 / n).
Proof.
  intros a b. exists (norm (a, b, 1)). split; [|reflexivity].
  apply sqrt_lt_R0, squaredNorm_lifted.
Qed.

Lemma bearing_reprojects_ctor : forall w0 h0 f ppx ppy px py,
  f <> 0 ->
  let c := Pinhole_Intrinsic_ctor w0 h0 f ppx ppy in
  let b := operator_call c (px, py) in
  cam2ima c (x3 b / z3 b, y3 b / z3 b) = (px, py).
Proof.
  intros w0 h0 f ppx ppy px py Hf c b. subst b c.
  unfold operator_call.
  change (_Kinv (Pinhole_Intrinsic_ctor w0 h0 f ppx ppy))
    with (Kinv (Pinhole_Intrinsic_ctor w0 h0 f ppx ppy)).
  cbn [fst snd]. change s_one with 1. rewrite Kinv_mul_vec by exact Hf.
  destruct (normalized_lifted ((px - ppx) / f) ((py - ppy) / f))
    as (n & Hn & ->).
  unfold x3, y3, z3, cam2ima, add2, scale2. cbn.
  apply vec2_eq; field; split; lra.
Qed.

(** X10. With a nonzero focal, a pixel is recovered from its bearing
    vector: dividing the vector by its third coefficient and mapping the
    result with [cam2ima] gives the pixel back. *)
Theorem bearing_reprojects :
  forall (c : Pinhole_Intrinsic R) (p : Vec2 R),
    reachable c -> focal c <> 0 ->
    let b := operator_call c p in
    cam2ima c (x3 b / z3 b, y3 b / z3 b) = p.
Proof.
  intros c [px py] Hc Hf. rewrite (reachable_ctor c Hc).
  apply bearing_reprojects_ctor. exact Hf.
Qed.

Lemma bearing_of_principal_point_ctor : forall w0 h0 f ppx ppy,
  f <> 0 ->
  operator_call (Pinhole_Intrinsic_ctor w0 h0 f ppx ppy) (ppx, ppy)
  = (0, 0, 1).
Proof.
  intros w0 h0 f ppx ppy Hf. unfold operator_call.
  change (_Kinv (Pinhole_Intrinsic_ctor w0 h0 f ppx ppy))
    with (Kinv (Pinhole_Intrinsic_ctor w0 h0 f ppx ppy)).
  cbn [fst snd]. change s_one with 1. rewrite Kinv_mul_vec by exact Hf.
  unfold normalized, norm, squaredNorm. cbn.
  replace ((ppx - ppx) / f * ((ppx - ppx) / f)
           + (ppy - ppy) / f * ((ppy - ppy) / f) + 1 * 1)
    with 1 by (field; exact Hf).
  rewrite sqrt_1. apply vec3_eq; field; exact Hf.
Qed.

(** X11. With a nonzero focal, the bearing vector of the principal point
    is the optical axis (0, 0, 1). *)
Theorem bearing_of_principal_point :
  forall c : Pinhole_Intrinsic R,
    reachable c -> focal c <> 0 ->
    operator_call c (principal_point c) = (0, 0, 1).
Proof.
  intros c Hc Hf. rewrite (reachable_ctor c Hc).
  exact (bearing_of_principal_point_ctor _ _ _ _ _ Hf).
Qed.

(** X12. With a nonzero focal, [imagePlane_toCameraPlaneError] is the
    scale of [ima2cam]: the camera plane points of two pixels differ by
    the converted difference of the pixels, and a camera plane length
    scaled by the focal converts back to itself. *)
Theorem imagePlane_toCameraPlaneError_scale :
  forall (c : Pinhole_Intrinsic R) (p q : Vec2 R) (e : R),
    focal c <> 0 ->
    sub2 (ima2cam c p) (ima2cam c q)
    = (imagePlane_toCameraPlaneError c (fst p - fst q),
       imagePlane_toCameraPlaneError c (snd p - snd q))
    /\ imagePlane_toCameraPlaneError c (focal c * e) = e.
Proof.
  intros c [px py] [qx qy] e Hf.
  unfold ima2cam, imagePlane_toCameraPlaneError, sub2, div2,
    principal_point, focal in *.
  cbn in *. split; [apply vec2_eq|]; field; exact Hf.
Qed.

(** X13. The projective equivalent maps a 3D point as the pose then the
    camera do: [P * (X, 1)] is [K * (R * X + t)]; its third coefficient is
    the depth of the point in the camera frame, and when that depth is
    not zero the pixel it stands for is [cam2ima] of the point divided by
    its depth. *)
Theorem projective_equivalent_projects :
  forall (c : Pinhole_Intrinsic R) (pose : Pose3 R) (X : Vec3 R),
    reachable c ->
    let P := get_projective_equivalent c pose in
    let Xc := add3 (mul_vec (rotation pose) X) (translation pose) in
    mul34_point P X = mul_vec (K c) Xc
    /\ z3 (mul34_point P X) = z3 Xc
    /\ (z3 Xc <> 0 ->
        (x3 (mul34_point P X) / z3 (mul34_point P X),
         y3 (mul34_point P X) / z3 (mul34_point P X))
        = cam2ima c (x3 Xc / z3 Xc, y3 Xc / z3 Xc)).
Proof.
  intros c [Rm [[tx ty] tz]] [[x y] z] Hc P Xc.
  assert (E : mul34_point P (x, y, z) = mul_vec (K c) Xc).
  { subst P Xc. unfold get_projective_equivalent, P_From_KRt, mul34_point.
    cbn. apply vec3_eq; ring. }
  split; [exact E|]. rewrite E. clear E P.
  rewrite (reachable_ctor c Hc).
  destruct Xc as [[a b] d]. rewrite K_mul_vec.
  unfold x3, y3, z3, cam2ima, add2, scale2. cbn. split; [reflexivity|].
  intro Hd. apply vec2_eq; field; exact Hd.
Qed.

End MoreExact.

(** ** The laws at concrete inputs, on binary64 *)

Lemma updateFromParams_checks_length_witness :
  let c := Pinhole_Intrinsic_ctor 640 480 500%float 320%float 240%float in
  updateFromParams c [700; 300; 200]%float
  = (true, Pinhole_Intrinsic_ctor 640 480 700%float 300%float 200%float)
  /\ updateFromParams c [700; 300]%float = (false, c).
Proof.
  intro c. split.
  - apply (proj1 (updateFromParams_checks_length c [700; 300; 200]%float)).
    reflexivity.
  - destruct (proj2 (updateFromParams_checks_length c [700; 300]%float))
      as (E1 & E2 & _).
    + simpl. discriminate.
    + rewrite (surjective_pairing (updateFromParams c [700; 300]%float)).
      now rewrite E1, E2.
Defined.

Lemma getParams_updateFromParams_roundtrip_witness :
  let c := Pinhole_Intrinsic_ctor 1920 1080 1000%float 960%float 540%float in
  updateFromParams c (getParams c) = (true, c).
Proof.
  intro c.
  apply (getParams_updateFromParams_roundtrip c). apply reach_ctor.
Defined.

Lemma save_load_roundtrip_witness :
  let c := Pinhole_Intrinsic_ctor 640 480 500%float 320%float 240%float in
  reachable c
  /\ load Pinhole_Intrinsic_default (save c [] ++ []) = Some (c, []).
Proof.
  intro c. assert (Hc : reachable c) by apply reach_ctor.
  split; [exact Hc|].
  destruct save_load_roundtrip as [G _].
  destruct (G float Scalar_double c Pinhole_Intrinsic_default []) as [_ L].
  exact (L Hc).
Defined.

(** A negative focal, over the reals. *)
Lemma updateFromParams_no_value_check_witness :
  let c := Pinhole_Intrinsic_ctor 640 480 500%R 320%R 240%R in
  (-2 < 0)%R /\ (320 < 400)%R
  /\ fst (updateFromParams c [-2; 320; 240]%R) = true
  /\ (fst (ima2cam (snd (updateFromParams c [-2; 320; 240]%R))
             (400, 240)%R) < 0)%R.
Proof.
  intro c.
  assert (Hf : (-2 < 0)%R) by lra.
  assert (Hp : (320 < 400)%R) by lra.
  split; [exact Hf|]. split; [exact Hp|].
  destruct updateFromParams_no_value_check as (_ & _ & G).
  destruct (G c (-2)%R 320%R 240%R 400%R 240%R Hf Hp) as (E1 & _ & E3).
  split; [exact E1 | exact E3].
Defined.

(** ** The laws at concrete inputs, on the reals *)

Lemma Kinv_is_inverse_of_K_witness :
  let c := Pinhole_Intrinsic_ctor 1920 1080 1000%R 960%R 540%R in
  let c0 := snd (updateFromParams c [0; 960; 540]%R) in
  reachable c /\ focal c <> 0%R
  /\ mul (K c) (Kinv c) = Identity /\ mul (Kinv c) (K c) = Identity
  /\ reachable c0 /\ focal c0 = 0%R
  /\ mul (K c0) (Kinv c0) <> Identity.
Proof.
  intros c c0. assert (Hc : reachable c) by apply reach_ctor.
  assert (Hf : focal c <> 0%R) by (cbn; lra).
  assert (Hc0 : reachable c0) by (apply reach_update; exact Hc).
  assert (Hf0 : focal c0 = 0%R) by reflexivity.
  destruct Kinv_is_inverse_of_K as [_ G].
  destruct (proj1 (G c Hc) Hf) as [E1 E2].
  repeat (split; [assumption|]).
  exact (proj2 (G c0 Hc0) Hf0).
Defined.

Lemma cam2ima_ima2cam_inverse_witness :
  let c := Pinhole_Intrinsic_ctor 1920 1080 1000%R 960%R 540%R in
  focal c <> 0%R
  /\ cam2ima c (ima2cam c (100, 200)%R) = (100, 200)%R
  /\ ima2cam c (cam2ima c (100, 200)%R) = (100, 200)%R.
Proof.
  intro c. assert (Hf : focal c <> 0%R) by (cbn; lra).
  split; [exact Hf|].
  destruct (cam2ima_ima2cam_inverse c (100, 200)%R Hf) as (_ & _ & E1 & E2).
  split; [exact E1 | exact E2].
Defined.



(** ** The further laws at concrete inputs, on binary64 *)

Lemma K_structured_witness :
  let c := snd (updateFromParams
                  (Pinhole_Intrinsic_ctor 640 480 500%float 320%float 240%float)
                  [700; 300; 200]%float) in
  reachable c
  /\ K c = mat3 700%float 0%float 300%float
                0%float 700%float 200%float
                0%float 0%float 1%float.
Proof.
  intro c.
  assert (Hc : reachable c) by (apply reach_update, reach_ctor).
  split; [exact Hc|]. exact (proj1 (K_structured c Hc)).
Defined.

Lemma updateFromParams_getParams_witness :
  let c := Pinhole_Intrinsic_ctor 640 480 500%float 320%float 240%float in
  getParams (snd (updateFromParams c [700; 300; 200]%float))
  = [700; 300; 200]%float.
Proof.
  intro c. apply (updateFromParams_getParams c). reflexivity.
Defined.

Lemma updateFromParams_last_wins_witness :
  let c := Pinhole_Intrinsic_ctor 640 480 500%float 320%float 240%float in
  updateFromParams (snd (updateFromParams c [1; 2; 3]%float))
    [700; 300; 200]%float
  = updateFromParams c [700; 300; 200]%float.
Proof.
  intro c. apply (updateFromParams_last_wins c). reflexivity.
Defined.

Lemma load_replaces_object_witness :
  load Pinhole_Intrinsic_default
    [("width"%string, Archive.V_uint 640);
     ("height"%string, Archive.V_uint 480);
     ("focal_length"%string, Archive.V_double 500%float);
     ("principal_point"%string, Archive.V_vector [320; 240; 7]%float)]
  = Some (Pinhole_Intrinsic_ctor 640 480 500%float 320%float 240%float, []).
Proof.
  destruct (load_replaces_object (F := float) Pinhole_Intrinsic_default
    [("width"%string, Archive.V_uint 640);
     ("height"%string, Archive.V_uint 480);
     ("focal_length"%string, Archive.V_double 500%float);
     ("principal_point"%string, Archive.V_vector [320; 240; 7]%float)])
    as (_ & _ & G).
  exact (G 640%N 480%N 500%float 320%float 240%float [7%float] [] eq_refl).
Defined.

Lemma save_load_sequence_witness :
  let c1 := Pinhole_Intrinsic_ctor 640 480 500%float 320%float 240%float in
  let c2 := Pinhole_Intrinsic_ctor 1920 1080 1000%float 960%float 540%float in
  (' (a', ar) <- load Pinhole_Intrinsic_default (save c2 (save c1 [])) ;;
   ' (b', ar) <- load Pinhole_Intrinsic_default ar ;;
   Some (a', b', ar))
  = Some (c1, c2, []).
Proof.
  intros c1 c2. apply (save_load_sequence c1 c2); apply reach_ctor.
Defined.

Lemma getParams_determines_witness :
  let c1 := Pinhole_Intrinsic_ctor 640 480 500%float 320%float 240%float in
  let c2 := snd (updateFromParams
                   (Pinhole_Intrinsic_ctor 640 480 1%float 2%float 3%float)
                   [500; 320; 240]%float) in
  c1 = c2.
Proof.
  intros c1 c2. apply (getParams_determines c1 c2).
  - apply reach_ctor.
  - apply reach_update, reach_ctor.
  - reflexivity.
  - reflexivity.
  - reflexivity.
Defined.

(** ** The further laws at concrete inputs, on the reals *)

Lemma cam2ima_is_K_witness :
  let c := Pinhole_Intrinsic_ctor 1920 1080 1000%R 960%R 540%R in
  reachable c
  /\ mul_vec (K c) (2, 3, 1)%R
     = (fst (cam2ima c (2, 3)%R), snd (cam2ima c (2, 3)%R), 1%R).
Proof.
  intro c. assert (Hc : reachable c) by apply reach_ctor.
  split; [exact Hc|]. exact (cam2ima_is_K c (2, 3)%R Hc).
Defined.

Lemma bearing_is_ima2cam_witness :
  let c := Pinhole_Intrinsic_ctor 1920 1080 1000%R 960%R 540%R in
  reachable c /\ focal c <> 0%R
  /\ operator_call c (100, 200)%R
     = normalized (fst (ima2cam c (100, 200)%R),
                   snd (ima2cam c (100, 200)%R), 1%R).
Proof.
  intro c. assert (Hc : reachable c) by apply reach_ctor.
  assert (Hf : focal c <> 0%R) by (cbn; lra).
  split; [exact Hc|]. split; [exact Hf|].
  exact (proj2 (bearing_is_ima2cam c (100, 200)%R Hc Hf)).
Defined.

Lemma bearing_reprojects_witness :
  let c := Pinhole_Intrinsic_ctor 1920 1080 1000%R 960%R 540%R in
  let b := operator_call c (100, 200)%R in
  reachable c /\ focal c <> 0%R
  /\ cam2ima c (x3 b / z3 b, y3 b / z3 b)%R = (100, 200)%R.
Proof.
  intros c b. assert (Hc : reachable c) by apply reach_ctor.
  assert (Hf : focal c <> 0%R) by (cbn; lra).
  split; [exact Hc|]. split; [exact Hf|].
  exact (bearing_reprojects c (100, 200)%R Hc Hf).
Defined.

Lemma bearing_of_principal_point_witness :
  let c := Pinhole_Intrinsic_ctor 1920 1080 1000%R 960%R 540%R in
  reachable c /\ focal c <> 0%R
  /\ operator_call c (960, 540)%R = (0, 0, 1)%R.
Proof.
  intro c. assert (Hc : reachable c) by apply reach_ctor.
  assert (Hf : focal c <> 0%R) by (cbn; lra).
  split; [exact Hc|]. split; [exact Hf|].
  exact (bearing_of_principal_point c Hc Hf).
Defined.

Lemma imagePlane_toCameraPlaneError_scale_witness :
  let c := Pinhole_Intrinsic_ctor 1920 1080 1000%R 960%R 540%R in
  focal c <> 0%R
  /\ imagePlane_toCameraPlaneError c (focal c * 4)%R = 4%R.
Proof.
  intro c. assert (Hf : focal c <> 0%R) by (cbn; lra).
  split; [exact Hf|].
  exact (proj2 (imagePlane_toCameraPlaneError_scale
                  c (0, 0)%R (0, 0)%R 4%R Hf)).
Defined.

Lemma projective_equivalent_projects_witness :
  let c := Pinhole_Intrinsic_ctor 1920 1080 1000%R 960%R 540%R in
  let pose := {| rotation := Identity; translation := (0, 0, 2)%R |} in
  let X := (1, 2, 2)%R in
  let P := get_projective_equivalent c pose in
  let Xc := add3 (mul_vec (rotation pose) X) (translation pose) in
  reachable c /\ z3 Xc <> 0%R
  /\ z3 (mul34_point P X) = z3 Xc
  /\ (x3 (mul34_point P X) / z3 (mul34_point P X),
      y3 (mul34_point P X) / z3 (mul34_point P X))%R
     = cam2ima c (x3 Xc / z3 Xc, y3 Xc / z3 Xc)%R.
Proof.
  intros c pose X P Xc. assert (Hc : reachable c) by apply reach_ctor.
  assert (Hz : z3 Xc <> 0%R) by (cbn; lra).
  split; [exact Hc|]. split; [exact Hz|].
  destruct (projective_equivalent_projects c pose X Hc) as (_ & E2 & E3).
  split; [exact E2 | exact (E3 Hz)].
Defined.
